(** * Time Segmented Value (pandas_ta/volume/wb_tsv.py)

    A shallow embedding of [wb_tsv] and of the pandas operations it is
    built from, with the properties its specification states.

    Numbers.  A pandas float64 cell is modelled by [value]: an exact
    rational, one of the two infinities, or NaN (the null entry of a
    Series).  Arithmetic is the IEEE arithmetic of the special values
    over exact rationals; rounding, overflow and the sign of zero are
    outside the model.  A Python int is an unbounded integer; the
    limits pandas puts on the size of a window (a C long) and on the
    length of a Series are outside the model too.

    Series.  A Series is the list of its cells in index order, over the
    default index [0 .. n-1].  A binary operation aligns its operands on
    that index: where only one operand has a cell, the result is NaN.

    Errors.  A Python exception is a value of [pyerr]; code that may
    raise lives in the [result] monad. *)

From Stdlib Require Import ZArith QArith Qabs String Bool Lia List.
From Stdlib Require Import DecimalString.
From Stdlib Require Qcanon.
Import ListNotations.

Local Open Scope Z_scope.

(* ================================================================= *)
(** ** Exceptions *)

Inductive pyerr : Type :=
| TypeError
| ValueError
| AttributeError
| OverflowError.

Inductive result (A : Type) : Type :=
| Ok (a : A)
| Err (e : pyerr).

Arguments Ok {A} a.
Arguments Err {A} e.

Definition bind {A B : Type} (r : result A) (k : A -> result B) : result B :=
  match r with
  | Ok a => k a
  | Err e => Err e
  end.

Notation "x <- r ;; k" := (bind r (fun x => k))
  (at level 61, r at next level, right associativity).
Notation "' pat <- r ;; k" := (bind r (fun x => match x with pat => k end))
  (at level 61, pat pattern, r at next level, right associativity).

Definition raises {A : Type} (r : result A) : Prop :=
  exists e, r = Err e.

(* ================================================================= *)
(** ** Cells *)

Inductive value : Type :=
| Fin (q : Q)
| PosInf
| NegInf
| NaN.

(** Finite results are kept in lowest terms, so that equal numbers are
    equal terms. *)
Definition fin (q : Q) : value := Fin (Qred q).

Definition isna (v : value) : bool :=
  match v with NaN => true | _ => false end.

Definition notna (v : value) : bool := negb (isna v).

Definition is_finite (v : value) : bool :=
  match v with Fin _ => true | _ => false end.

(** The sign of a cell: -1, 0 or 1 (0 for NaN). *)
Definition sgn (v : value) : Z :=
  match v with
  | Fin q => Z.sgn (Qnum q)
  | PosInf => 1
  | NegInf => -1
  | NaN => 0
  end.

Definition inf_of_sign (s : Z) : value :=
  if s =? 0 then NaN else if 0 <? s then PosInf else NegInf.

(** [v < 0], false on NaN as every comparison with NaN is. *)
Definition lt0 (v : value) : bool := sgn v <? 0.

Definition vneg (v : value) : value :=
  match v with
  | Fin q => fin (- q)
  | PosInf => NegInf
  | NegInf => PosInf
  | NaN => NaN
  end.

Definition vadd (a b : value) : value :=
  match a, b with
  | NaN, _ | _, NaN => NaN
  | Fin x, Fin y => fin (x + y)
  | PosInf, NegInf | NegInf, PosInf => NaN
  | PosInf, _ | _, PosInf => PosInf
  | NegInf, _ | _, NegInf => NegInf
  end.

Definition vsub (a b : value) : value := vadd a (vneg b).

Definition vmul (a b : value) : value :=
  match a, b with
  | NaN, _ | _, NaN => NaN
  | Fin x, Fin y => fin (x * y)
  | _, _ => inf_of_sign (sgn a * sgn b)
  end.

(** Division never raises: a zero divisor gives an infinity, or NaN
    for 0/0. *)
Definition vdiv (a b : value) : value :=
  match a, b with
  | NaN, _ | _, NaN => NaN
  | Fin x, Fin y =>
      if Qnum y =? 0 then inf_of_sign (sgn a) else fin (x / y)
  | Fin _, _ => Fin 0
  | _, Fin y => inf_of_sign (sgn a * (if Qnum y <? 0 then -1 else 1))
  | _, _ => NaN
  end.

Definition vabs (v : value) : value :=
  match v with
  | Fin q => fin (Qabs q)
  | PosInf | NegInf => PosInf
  | NaN => NaN
  end.

(* ================================================================= *)
(** ** Series *)

Definition Series : Type := list value.

(** The cell at an integer position, NaN outside the index. *)
Definition cell (s : Series) (i : Z) : value :=
  if (0 <=? i) && (i <? Z.of_nat (length s))
  then nth (Z.to_nat i) s NaN
  else NaN.

(** The positions of a Series of [n] cells. *)
Definition index (n : nat) : list Z := map Z.of_nat (seq 0 n).

(** The Series whose cell at position [i] is [f i]. *)
Definition tabulate (n : nat) (f : Z -> value) : Series := map f (index n).

(** [a op b]: both operands are aligned on the union of their indexes,
    a missing cell counting as NaN, and [op] is applied cell by cell. *)
Definition align (op : value -> value -> value) (a b : Series) : Series :=
  tabulate (Nat.max (length a) (length b)) (fun i => op (cell a i) (cell b i)).

Definition Series_mul : Series -> Series -> Series := align vmul.
Definition Series_div : Series -> Series -> Series := align vdiv.
Definition Series_sub : Series -> Series -> Series := align vsub.
Definition Series_neg (s : Series) : Series := map vneg s.
Definition Series_apply (f : value -> value) (s : Series) : Series := map f s.

(** [s.shift(k)]: the cell at [i] comes from [i - k]. *)
Definition Series_shift (s : Series) (k : Z) : Series :=
  tabulate (length s) (fun i => cell s (i - k)).

(** [s.diff(k)] is [s - s.shift(k)]. *)
Definition Series_diff (s : Series) (k : Z) : Series :=
  Series_sub s (Series_shift s k).

(** [s < 0], the boolean mask of the negative cells. *)
Definition Series_lt0 (s : Series) : list bool := map lt0 s.

(** [s[mask] = other]: where the mask holds, the cell of [other] at the
    same position replaces the cell of [s]. *)
Definition setitem_mask (s : Series) (mask : list bool) (other : Series) : Series :=
  tabulate (length s)
    (fun i => if nth (Z.to_nat i) mask false then cell other i else cell s i).

(** [s.rolling(w).sum()], with pandas' default [min_periods = w]: the
    window at [i] holds the cells at [i-w+1 .. i] that exist; its
    observations are the finite cells (a rolling window takes an
    infinity as missing, like NaN); the result is their sum when there
    are at least [w] of them, and NaN otherwise. *)
Definition zrange (lo count : Z) : list Z :=
  map (fun k => lo + Z.of_nat k) (seq 0 (Z.to_nat count)).

Definition window (s : Series) (w : Z) (i : Z) : list value :=
  let lo := Z.max 0 (i - w + 1) in
  map (cell s) (zrange lo (i + 1 - lo)).

Definition vsum (l : list value) : value := fold_left vadd l (Fin 0).

Definition rolling_sum_at (s : Series) (w : Z) (i : Z) : value :=
  let obs := filter is_finite (window s w i) in
  if w <=? Z.of_nat (length obs) then vsum obs else NaN.

Definition rolling_sum (s : Series) (w : Z) : Series :=
  tabulate (length s) (rolling_sum_at s w).

(** [s.fillna(v)]. *)
Definition fillna_value (v : value) (s : Series) : Series :=
  map (fun x => if isna x then v else x) s.

(** [m.lower()] on the ASCII letters. *)
Definition ascii_lower (c : Ascii.ascii) : Ascii.ascii :=
  let n := Ascii.nat_of_ascii c in
  if (Nat.leb 65 n && Nat.leb n 90)%bool
  then Ascii.ascii_of_nat (n + 32)
  else c.

Fixpoint str_lower (m : string) : string :=
  match m with
  | EmptyString => EmptyString
  | String c m' => String (ascii_lower c) (str_lower m')
  end.

(** [s.fillna(method=m)].  pandas lower-cases the name, knows the
    methods pad/ffill and backfill/bfill, and raises ValueError on any
    other name. *)
Inductive fill_direction : Type := Pad | Backfill.

Definition clean_fill_method (m : string) : result fill_direction :=
  let m := str_lower m in
  if String.eqb m "pad" || String.eqb m "ffill" then Ok Pad
  else if String.eqb m "backfill" || String.eqb m "bfill" then Ok Backfill
  else Err ValueError.

Fixpoint pad_from (last : value) (s : Series) : Series :=
  match s with
  | [] => []
  | x :: s' => if isna x then last :: pad_from last s' else x :: pad_from x s'
  end.

Definition fill_dir (d : fill_direction) (s : Series) : Series :=
  match d with
  | Pad => pad_from NaN s
  | Backfill => rev (pad_from NaN (rev s))
  end.

Definition fillna_method (m : string) (s : Series) : result Series :=
  d <- clean_fill_method m ;;
  Ok (fill_dir d s).

(** [a < b] on cells, false when either side is NaN. *)
Definition vlt (a b : value) : bool := lt0 (vsub a b).

(* ================================================================= *)
(** ** Python values passed as parameters *)

Inductive pyval : Type :=
| PyNone
| PyBool (b : bool)
| PyInt (z : Z)
| PyFloat (v : value)
| PyStr (s : string).

(** Truth value of an object. *)
Definition truthy (x : pyval) : bool :=
  match x with
  | PyNone => false
  | PyBool b => b
  | PyInt z => negb (z =? 0)
  | PyFloat v => negb (is_finite v && (sgn v =? 0))
  | PyStr s => match s with EmptyString => false | _ => true end
  end.

(** [x > 0]: defined between numbers, TypeError otherwise. *)
Definition py_gt0 (x : pyval) : result bool :=
  match x with
  | PyNone => Err TypeError
  | PyBool b => Ok b
  | PyInt z => Ok (0 <? z)
  | PyFloat v => Ok (0 <? sgn v)
  | PyStr _ => Err TypeError
  end.

(** [int(x)] on None and on numbers: truncation toward zero for a
    float, OverflowError on an infinity, ValueError on NaN.  On a str,
    [int] parses a literal; [wb_tsv] never gets there (the comparison
    before it raises), and the model reports ValueError. *)
Definition py_int (x : pyval) : result Z :=
  match x with
  | PyNone => Err TypeError
  | PyBool b => Ok (if b then 1 else 0)
  | PyInt z => Ok z
  | PyFloat (Fin q) => Ok (Z.quot (Qnum q) (Zpos (Qden q)))
  | PyFloat NaN => Err ValueError
  | PyFloat _ => Err OverflowError
  | PyStr _ => Err ValueError
  end.

(** [int(x) if x and x > 0 else default] (lines 40 and 41). *)
Definition int_if_positive (x : pyval) (default : Z) : result Z :=
  if truthy x then
    positive <- py_gt0 x ;;
    if positive then py_int x else Ok default
  else Ok default.

(** [mamode if isinstance(mamode, str) else "sma"] (line 42). *)
Definition str_or_sma (mamode : pyval) : string :=
  match mamode with
  | PyStr s => s
  | _ => "sma"%string
  end.

(** An object on which [.shift] is looked up: only a Series has it. *)
Inductive pyobj : Type :=
| ObjInt (z : Z)
| ObjSeries (s : Series).

Definition py_shift (o : pyobj) (k : Z) : result Series :=
  match o with
  | ObjSeries s => Ok (Series_shift s k)
  | ObjInt _ => Err AttributeError
  end.

(* ================================================================= *)
(** ** Collaborators from pandas_ta.utils *)

(** Modelled from the spec: [get_drift] (pandas_ta.utils) is not part of
    the source at hand.  It "coerces to a positive integer, default 1
    if absent/invalid". *)
Definition get_drift (x : pyval) : Z :=
  match x with
  | PyInt z => if 0 <? z then z else 1
  | _ => 1
  end.

(** Modelled from the spec: [get_offset] (pandas_ta.utils) is not part
    of the source at hand.  It "coerces to an integer, default 0 if
    absent/invalid". *)
Definition get_offset (x : pyval) : Z :=
  match x with
  | PyInt z => z
  | _ => 0
  end.

(** Modelled from the spec: [signed_series] (pandas_ta.utils) is not
    part of the source at hand.  "sign(i) = +1 if close(i) > close(i-1),
    -1 if close(i) < close(i-1), and a configured neutral value if
    equal or undefined", a series of -1, 0 and +1; the second argument
    is the lag. *)
Definition signed_series (s : Series) (lag : Z) : Series :=
  map (fun d => Fin (inject_Z (sgn d))) (Series_diff s lag).

(** Modelled from the spec: [zero] (pandas_ta.utils) is not part of the
    source at hand.  "values within a small epsilon of zero are forced
    to exactly zero"; the epsilon is that of double precision. *)
Definition epsilon : Q := 1 # (2 ^ 52).

Definition zero (x : value) : value :=
  if vlt (vabs x) (Fin epsilon) then Fin 0 else x.

(* ================================================================= *)
(** ** The result table *)

(** A Series object of lines 74 to 77, with the attributes set on it. *)
Record NamedSeries : Type := mkNamedSeries {
  ser_name : string;
  ser_category : string;
  ser_values : Series
}.

(** A column of the table: its label and its cells.  [DataFrame(data)]
    takes the labels from the keys of [data] and the cells from the
    Series; the [category] set on a Series object does not go with
    them. *)
Record Column : Type := mkColumn {
  col_name : string;
  col_values : Series
}.

Record DataFrame : Type := mkDataFrame {
  df_name : string;
  df_category : string;
  df_tsv : Column;
  df_signal : Column;
  df_ratio : Column
}.

(** The keyword arguments [wb_tsv] looks at. *)
Record kwargs : Type := mkKwargs {
  kw_fillna : option value;
  kw_fill_method : option string
}.

Definition no_kwargs : kwargs := mkKwargs None None.

(** [f"{n}"] for an int. *)
Definition str_of_int (n : Z) : string := NilEmpty.string_of_int (Z.to_int n).

(* ================================================================= *)
(** ** wb_tsv *)

(** Lines 47 to 49, from the volume and the sign series.  The Series
    that [apply] builds on line 49 is not bound to any name:
    [signed_volume] is the one of line 48. *)
Definition signed_volume_from (volume sign : Series) : Series :=
  let signed_volume := Series_mul volume sign in
  let signed_volume :=
    setitem_mask signed_volume (Series_lt0 signed_volume)
      (Series_neg signed_volume) in
  let _ := Series_apply zero signed_volume in
  signed_volume.

Section WbTsv.

(** The moving average of pandas_ta.overlap, a black box: mode name,
    series and window to series. *)
Variable ma : string -> Series -> Z -> Series.

(** Lines 57 to 60. *)
Definition offset_step (offset signal : Z) (tsv signal_ ratio : Series)
  : result (Series * Series * Series) :=
  if negb (offset =? 0) then
    let tsv := Series_shift tsv offset in
    signal_ <- py_shift (ObjInt signal) offset ;;
    let ratio := Series_shift ratio offset in
    Ok (tsv, signal_, ratio)
  else Ok (tsv, signal_, ratio).

(** Lines 63 to 70. *)
Definition fill_step (kw : kwargs) (tsv signal_ ratio : Series)
  : result (Series * Series * Series) :=
  let '(tsv, signal_, ratio) :=
    match kw_fillna kw with
    | Some v => (fillna_value v tsv, fillna_value v signal_, fillna_value v ratio)
    | None => (tsv, signal_, ratio)
    end in
  match kw_fill_method kw with
  | Some m =>
      tsv <- fillna_method m tsv ;;
      signal_ <- fillna_method m signal_ ;;
      ratio <- fillna_method m ratio ;;
      Ok (tsv, signal_, ratio)
  | None => Ok (tsv, signal_, ratio)
  end.

(** Lines 72 to 83. *)
Definition name_and_package (length signal : Z) (tsv signal_ ratio : Series)
  : DataFrame :=
  (* Name and Categorize *)
  let _props := ("_" ++ str_of_int length ++ "_" ++ str_of_int signal)%string in
  let tsv := mkNamedSeries ("TSV" ++ _props) "volume" tsv in
  let signal_ := mkNamedSeries ("TSVs" ++ _props) "volume" signal_ in
  let ratio := mkNamedSeries ("TSVr" ++ _props) "volume" ratio in
  (* Prepare DataFrame to return *)
  mkDataFrame ("TSV" ++ _props) (ser_category tsv)
    (mkColumn (ser_name tsv) (ser_values tsv))
    (mkColumn (ser_name signal_) (ser_values signal_))
    (mkColumn (ser_name ratio) (ser_values ratio)).

(** Lines 46 to 85, on the validated arguments. *)
Definition wb_tsv_result (close volume : Series)
    (length signal : Z) (mamode : string) (drift offset : Z) (kw : kwargs)
  : result DataFrame :=
  (* Calculate Result *)
  let signed_volume := signed_volume_from volume (signed_series close 1) in
  let cvd := Series_mul signed_volume (Series_diff close drift) in
  let tsv := rolling_sum cvd length in
  let signal_ := ma mamode tsv signal in
  let ratio := Series_div tsv signal_ in
  (* Offset *)
  '(tsv, signal_, ratio) <- offset_step offset signal tsv signal_ ratio ;;
  (* Handle fills *)
  '(tsv, signal_, ratio) <- fill_step kw tsv signal_ ratio ;;
  Ok (name_and_package length signal tsv signal_ ratio).

Definition wb_tsv (close volume : Series)
    (length signal mamode drift offset : pyval) (kw : kwargs)
  : result DataFrame :=
  (* Validate Arguments *)
  length <- int_if_positive length 18 ;;
  signal <- int_if_positive signal 10 ;;
  let mamode := str_or_sma mamode in
  let drift := get_drift drift in
  let offset := get_offset offset in
  wb_tsv_result close volume length signal mamode drift offset kw.

(** The three Series of lines 47 to 54. *)
Definition cvd_of (close volume : Series) (drift : Z) : Series :=
  Series_mul (signed_volume_from volume (signed_series close 1))
    (Series_diff close drift).

Definition tsv_of (close volume : Series) (length drift : Z) : Series :=
  rolling_sum (cvd_of close volume drift) length.

Definition signal_of (close volume : Series)
    (length signal : Z) (mamode : string) (drift : Z) : Series :=
  ma mamode (tsv_of close volume length drift) signal.

Definition ratio_of (close volume : Series)
    (length signal : Z) (mamode : string) (drift : Z) : Series :=
  Series_div (tsv_of close volume length drift)
    (signal_of close volume length signal mamode drift).

End WbTsv.

(** A simple moving average, one possible [ma]: the rolling sum over
    the window divided by the window. *)
Definition sma (mode : string) (s : Series) (n : Z) : Series :=
  map (fun x => vdiv x (Fin (inject_Z n))) (rolling_sum s n).

Definition num (n : Z) : value := Fin (inject_Z n).

(* ================================================================= *)
(** ** Vocabulary of the statements *)

(** What line 48 does to one cell. *)
Definition negate_if_negative (x : value) : value :=
  if lt0 x then vneg x else x.

(** The values of the three columns. *)
Definition tsv_values (df : DataFrame) : Series := col_values (df_tsv df).
Definition signal_values (df : DataFrame) : Series := col_values (df_signal df).
Definition ratio_values (df : DataFrame) : Series := col_values (df_ratio df).

(** A parameter of the declared type [int], or None when it is left out. *)
Definition int_arg (o : option Z) : pyval :=
  match o with
  | Some z => PyInt z
  | None => PyNone
  end.

Definition positive_or (o : option Z) (default : Z) : Z :=
  match o with
  | Some z => if 0 <? z then z else default
  | None => default
  end.

(** A Series without a null cell, and a Series of finite cells. *)
Definition no_nulls (s : Series) : bool := forallb notna s.

Definition all_finite (s : Series) : bool := forallb is_finite s.

(** *** Sample inputs *)

Definition close4 : Series := [num 1; num 2; num 3; num 5].
Definition volume4 : Series := [num 1; num 1; num 1; num 1].

(** The fixture of the specification: twenty closes, constant volume. *)
Definition close20 : Series :=
  map num [10; 11; 9; 12; 13; 11; 14; 15; 13; 16;
           18; 17; 19; 20; 18; 21; 22; 20; 23; 24].
Definition volume20 : Series := map (fun _ => num 1000) close20.

(** A volume below the epsilon of [zero]. *)
Definition tiny : value := Fin (1 # (2 ^ 53)).

(** *** The fill of one Series

    Lines 64 to 66 and 68 to 70 treat the three Series alike; this is
    what they do to one of them. *)
Definition fill_value_of (kw : kwargs) (s : Series) : Series :=
  match kw_fillna kw with
  | Some v => fillna_value v s
  | None => s
  end.

Definition fill_series (kw : kwargs) (s : Series) : result Series :=
  match kw_fill_method kw with
  | Some m => fillna_method m (fill_value_of kw s)
  | None => Ok (fill_value_of kw s)
  end.

(** The names of lines 73 to 76. *)
Definition props_of (length signal : Z) : string :=
  ("_" ++ str_of_int length ++ "_" ++ str_of_int signal)%string.

(* ================================================================= *)
(** * Properties *)

(** ** Cells of the Series operations *)

Lemma length_index (n : nat) : length (index n) = n.
Proof. unfold index. now rewrite length_map, length_seq. Qed.

Lemma length_tabulate (n : nat) (f : Z -> value) : length (tabulate n f) = n.
Proof. unfold tabulate. now rewrite length_map, length_index. Qed.

Lemma nth_index (n i : nat) (d : Z) :
  (i < n)%nat -> nth i (index n) d = Z.of_nat i.
Proof.
  intros Hi. unfold index.
  rewrite (nth_indep _ d (Z.of_nat 0)) by now rewrite length_map, length_seq.
  rewrite map_nth, seq_nth by assumption. reflexivity.
Qed.

Lemma nth_tabulate (n : nat) (f : Z -> value) (i : nat) :
  (i < n)%nat -> nth i (tabulate n f) NaN = f (Z.of_nat i).
Proof.
  intros Hi. unfold tabulate.
  rewrite (nth_indep _ NaN (f 0)) by now rewrite length_map, length_index.
  rewrite map_nth, nth_index by assumption. reflexivity.
Qed.

Lemma cell_in (s : Series) (i : Z) :
  0 <= i < Z.of_nat (length s) -> cell s i = nth (Z.to_nat i) s NaN.
Proof.
  intros Hi. unfold cell.
  replace (0 <=? i) with true by (symmetry; apply Z.leb_le; lia).
  replace (i <? Z.of_nat (length s)) with true by (symmetry; apply Z.ltb_lt; lia).
  reflexivity.
Qed.

Lemma cell_out (s : Series) (i : Z) :
  i < 0 \/ Z.of_nat (length s) <= i -> cell s i = NaN.
Proof.
  intros Hi. unfold cell.
  destruct (0 <=? i) eqn:Hlo; [|reflexivity].
  destruct (i <? Z.of_nat (length s)) eqn:Hhi; [|reflexivity].
  apply Z.leb_le in Hlo. apply Z.ltb_lt in Hhi. lia.
Qed.

Lemma cell_tabulate (n : nat) (f : Z -> value) (i : Z) :
  0 <= i < Z.of_nat n -> cell (tabulate n f) i = f i.
Proof.
  intros Hi. rewrite cell_in by (rewrite length_tabulate; lia).
  rewrite nth_tabulate by lia. f_equal. lia.
Qed.


Lemma length_align op (a b : Series) :
  length (align op a b) = Nat.max (length a) (length b).
Proof. apply length_tabulate. Qed.

Lemma cell_align op (a b : Series) (i : Z) :
  0 <= i < Z.of_nat (Nat.max (length a) (length b)) ->
  cell (align op a b) i = op (cell a i) (cell b i).
Proof. intros Hi. unfold align. now rewrite cell_tabulate. Qed.

Lemma length_Series_shift (s : Series) (k : Z) :
  length (Series_shift s k) = length s.
Proof. apply length_tabulate. Qed.

Lemma cell_Series_shift (s : Series) (k i : Z) :
  cell (Series_shift s k) i = cell s (i - k) \/ cell (Series_shift s k) i = NaN.
Proof.
  destruct (Z_lt_dec i 0) as [Hneg|Hpos].
  - right. apply cell_out. lia.
  - destruct (Z_lt_dec i (Z.of_nat (length s))) as [Hin|Hout].
    + left. unfold Series_shift. rewrite cell_tabulate; [reflexivity|lia].
    + right. apply cell_out. rewrite length_Series_shift. lia.
Qed.

Lemma length_Series_diff (s : Series) (k : Z) :
  length (Series_diff s k) = length s.
Proof.
  unfold Series_diff, Series_sub.
  rewrite length_align, length_Series_shift. lia.
Qed.

Lemma cell_Series_diff (s : Series) (k i : Z) :
  0 <= i < Z.of_nat (length s) ->
  cell (Series_diff s k) i = vsub (cell s i) (cell s (i - k)).
Proof.
  intros Hi. unfold Series_diff, Series_sub.
  rewrite cell_align by (rewrite length_Series_shift; lia).
  unfold Series_shift. now rewrite cell_tabulate.
Qed.

Lemma length_setitem_mask (s : Series) mask (other : Series) :
  length (setitem_mask s mask other) = length s.
Proof. apply length_tabulate. Qed.

Lemma length_rolling_sum (s : Series) (w : Z) :
  length (rolling_sum s w) = length s.
Proof. apply length_tabulate. Qed.

Lemma cell_map (f : value -> value) (s : Series) (i : Z) :
  0 <= i < Z.of_nat (length s) -> cell (map f s) i = f (cell s i).
Proof.
  intros Hi. rewrite !cell_in by (rewrite ?length_map; lia).
  rewrite (nth_indep _ NaN (f NaN)) by (rewrite length_map; lia).
  apply map_nth.
Qed.

(** ** The absolute-value correction (lines 47 and 48) *)







Lemma length_signed_volume_from (volume sign : Series) :
  length (signed_volume_from volume sign)
  = Nat.max (length volume) (length sign).
Proof.
  unfold signed_volume_from. cbv zeta.
  rewrite length_setitem_mask. apply length_align.
Qed.

Lemma cell_signed_volume_from (volume sign : Series) (i : Z) :
  0 <= i < Z.of_nat (Nat.max (length volume) (length sign)) ->
  cell (signed_volume_from volume sign) i
  = negate_if_negative (vmul (cell volume i) (cell sign i)).
Proof.
  intros Hi. unfold signed_volume_from, setitem_mask, Series_lt0, Series_neg.
  cbv zeta. unfold Series_mul at 1. rewrite length_align.
  rewrite cell_tabulate by assumption.
  change false with (lt0 NaN). rewrite map_nth.
  rewrite <- cell_in by (unfold Series_mul; rewrite length_align; lia).
  rewrite cell_map by (unfold Series_mul; rewrite length_align; lia).
  unfold Series_mul. rewrite cell_align by assumption. reflexivity.
Qed.

Lemma length_Series_neg (s : Series) : length (Series_neg s) = length s.
Proof. apply length_map. Qed.

Lemma cell_Series_neg (s : Series) (i : Z) : cell (Series_neg s) i = vneg (cell s i).
Proof.
  destruct (Z_lt_dec i 0) as [Hneg|Hpos].
  - rewrite !cell_out by (rewrite ?length_Series_neg; lia). reflexivity.
  - destruct (Z_lt_dec i (Z.of_nat (length s))) as [Hin|Hout].
    + unfold Series_neg. apply cell_map. lia.
    + rewrite !cell_out by (rewrite ?length_Series_neg; lia). reflexivity.
Qed.

(** ** The shape of a call *)

Lemma int_if_positive_int_arg (o : option Z) (default : Z) :
  int_if_positive (int_arg o) default = Ok (positive_or o default).
Proof.
  destruct o as [z|]; [|reflexivity].
  unfold int_if_positive, int_arg, positive_or, truthy.
  destruct (Z.eqb_spec z 0) as [->|Hz]; [reflexivity|].
  simpl. destruct (0 <? z); reflexivity.
Qed.

(** A non-empty string is true, and comparing it with 0 raises. *)
Lemma int_if_positive_str (c : Ascii.ascii) (s : string) (default : Z) :
  int_if_positive (PyStr (String c s)) default = Err TypeError.
Proof. reflexivity. Qed.

Section Shape.

Variable ma : string -> Series -> Z -> Series.

Lemma offset_step_zero (signal : Z) (tsv signal_ ratio : Series) :
  offset_step 0 signal tsv signal_ ratio = Ok (tsv, signal_, ratio).
Proof. reflexivity. Qed.

Lemma offset_step_nonzero (offset signal : Z) (tsv signal_ ratio : Series) :
  offset <> 0 ->
  offset_step offset signal tsv signal_ ratio = Err AttributeError.
Proof.
  intros Hk. unfold offset_step.
  destruct (Z.eqb_spec offset 0) as [H0|_]; [contradiction|reflexivity].
Qed.

Lemma wb_tsv_result_zero (close volume : Series)
    (length signal : Z) (mamode : string) (drift : Z) (kw : kwargs) :
  wb_tsv_result ma close volume length signal mamode drift 0 kw
  = ('(tsv, signal_, ratio) <-
       fill_step kw (tsv_of close volume length drift)
         (signal_of ma close volume length signal mamode drift)
         (ratio_of ma close volume length signal mamode drift) ;;
     Ok (name_and_package length signal tsv signal_ ratio)).
Proof. reflexivity. Qed.

Lemma wb_tsv_result_nonzero (close volume : Series)
    (length signal : Z) (mamode : string) (drift offset : Z) (kw : kwargs) :
  offset <> 0 ->
  wb_tsv_result ma close volume length signal mamode drift offset kw
  = Err AttributeError.
Proof.
  intros Hk. unfold wb_tsv_result. cbv zeta.
  now rewrite offset_step_nonzero.
Qed.

Lemma wb_tsv_validated (close volume : Series)
    (length signal mamode drift offset : pyval) (kw : kwargs) (l s : Z) :
  int_if_positive length 18 = Ok l ->
  int_if_positive signal 10 = Ok s ->
  wb_tsv ma close volume length signal mamode drift offset kw
  = wb_tsv_result ma close volume l s (str_or_sma mamode)
      (get_drift drift) (get_offset offset) kw.
Proof. intros Hl Hs. unfold wb_tsv. now rewrite Hl, Hs. Qed.

Lemma wb_tsv_Ok_inv (close volume : Series)
    (length signal mamode drift offset : pyval) (kw : kwargs) (df : DataFrame) :
  wb_tsv ma close volume length signal mamode drift offset kw = Ok df ->
  exists l s,
    int_if_positive length 18 = Ok l
    /\ int_if_positive signal 10 = Ok s
    /\ get_offset offset = 0
    /\ wb_tsv_result ma close volume l s (str_or_sma mamode)
         (get_drift drift) 0 kw = Ok df.
Proof.
  unfold wb_tsv. intros H.
  destruct (int_if_positive length 18) as [l|e] eqn:Hl; [|discriminate].
  destruct (int_if_positive signal 10) as [s|e] eqn:Hs; [|discriminate].
  simpl in H. exists l, s.
  destruct (Z.eq_dec (get_offset offset) 0) as [H0|Hn].
  - rewrite H0 in H. auto.
  - rewrite wb_tsv_result_nonzero in H by assumption. discriminate.
Qed.

End Shape.

(* ================================================================= *)
(** ** Argument validation (lines 40 to 44) *)

(** C7, as the code has it.  For [length] and [signal] of the declared
    type (an int, or None when left out) validation does not raise: the
    call is the computation on the given value when it is positive and
    on the default 18 (resp. 10) otherwise.  The mode is the given
    value when it is a string, whatever the string, and "sma"
    otherwise. *)
Theorem validation_of_declared_types
    (ma : string -> Series -> Z -> Series) (close volume : Series)
    (length signal : option Z) (mamode drift offset : pyval) (kw : kwargs) :
  int_if_positive (int_arg length) 18 = Ok (positive_or length 18)
  /\ int_if_positive (int_arg signal) 10 = Ok (positive_or signal 10)
  /\ wb_tsv ma close volume (int_arg length) (int_arg signal)
       mamode drift offset kw
     = wb_tsv_result ma close volume
         (positive_or length 18) (positive_or signal 10)
         (match mamode with PyStr s => s | _ => "sma"%string end)
         (get_drift drift) (get_offset offset) kw.
Proof.
  split; [apply int_if_positive_int_arg|].
  split; [apply int_if_positive_int_arg|].
  apply wb_tsv_validated; apply int_if_positive_int_arg.
Qed.

(** C7 fails as stated: a [length] that is a non-empty string makes
    the call raise TypeError (the string is true, and comparing it
    with 0 raises), and a string that names no smoothing mode is kept
    as the mode instead of being replaced by "sma". *)
Lemma validation_raises_on_str :
  wb_tsv sma close4 volume4 (PyStr "abc") PyNone PyNone PyNone PyNone no_kwargs
  = Err TypeError
  /\ str_or_sma (PyStr "zzz") = "zzz"%string
  /\ str_or_sma (PyStr "zzz") <> "sma"%string.
Proof.
  split; [reflexivity|]. split; [reflexivity|]. discriminate.
Qed.

(* ================================================================= *)
(** ** The offset branch (lines 57 to 60) *)

(** C6. With a nonzero offset the call raises and returns no table.
    Line 59 looks [shift] up on [signal], the int of line 41, not on
    the Series [signal_]; once validation has passed, the error is
    that AttributeError. *)
Theorem nonzero_offset_raises
    (ma : string -> Series -> Z -> Series) (close volume : Series)
    (length signal mamode drift offset : pyval) (kw : kwargs) :
  get_offset offset <> 0 ->
  raises (wb_tsv ma close volume length signal mamode drift offset kw)
  /\ (forall df,
        wb_tsv ma close volume length signal mamode drift offset kw <> Ok df)
  /\ (forall l s,
        int_if_positive length 18 = Ok l ->
        int_if_positive signal 10 = Ok s ->
        py_shift (ObjInt s) (get_offset offset) = Err AttributeError
        /\ wb_tsv ma close volume length signal mamode drift offset kw
           = Err AttributeError).
Proof.
  intros Hk.
  assert (Hnot : forall df,
             wb_tsv ma close volume length signal mamode drift offset kw
             <> Ok df).
  { intros df Hdf. apply wb_tsv_Ok_inv in Hdf.
    destruct Hdf as (l & s & _ & _ & H0 & _). contradiction. }
  split; [|split].
  - destruct (wb_tsv ma close volume length signal mamode drift offset kw)
      as [df|e] eqn:Hcall.
    + exfalso. now apply (Hnot df).
    + now exists e.
  - exact Hnot.
  - intros l s Hl Hs. split; [reflexivity|].
    rewrite (wb_tsv_validated ma _ _ _ _ _ _ _ _ l s Hl Hs).
    now apply wb_tsv_result_nonzero.
Qed.

Lemma nonzero_offset_raises_witness :
  get_offset (PyInt 1) <> 0
  /\ raises (wb_tsv sma close4 volume4 (PyInt 2) (PyInt 1) PyNone PyNone
               (PyInt 1) no_kwargs).
Proof.
  assert (H : get_offset (PyInt 1) <> 0) by (simpl; lia).
  split; [exact H|].
  exact (proj1 (nonzero_offset_raises sma close4 volume4 (PyInt 2) (PyInt 1)
                  PyNone PyNone (PyInt 1) no_kwargs H)).
Defined.

(** C2 at a failing input.  With offset 0 the call returns its three
    Series; with offset 1 nothing is returned, shifted or not: the call
    raises AttributeError on line 59. *)
Theorem offset_one_returns_nothing :
  (exists df,
     wb_tsv sma close4 volume4 (PyInt 2) (PyInt 1) PyNone PyNone (PyInt 0)
       no_kwargs = Ok df
     /\ tsv_values df = [NaN; NaN; num 2; num 3]
     /\ Series_shift (tsv_values df) 1 = [NaN; NaN; NaN; num 2])
  /\ wb_tsv sma close4 volume4 (PyInt 2) (PyInt 1) PyNone PyNone (PyInt 1)
       no_kwargs = Err AttributeError.
Proof.
  split; [|reflexivity].
  eexists. split; [reflexivity|]. split; reflexivity.
Qed.

(* ================================================================= *)
(** ** Input validation *)


(* ================================================================= *)
(** ** Snap to zero (line 49) *)

(** C3 at a failing input.  The second cell of [signed_volume] is
    within epsilon of zero, and [zero] maps it to 0; yet it enters the
    product of line 50 as it is, and reaches [tsv]. *)
Theorem near_zero_volume_not_snapped :
  let close := [num 1; num 2] in
  let volume := [num 1; tiny] in
  let signed_volume := signed_volume_from volume (signed_series close 1) in
  cell signed_volume 1 = tiny
  /\ vlt (vabs (cell signed_volume 1)) (Fin epsilon) = true
  /\ zero (cell signed_volume 1) = Fin 0
  /\ cell (Series_mul signed_volume (Series_diff close 1)) 1 = tiny
  /\ exists df,
       wb_tsv sma close volume (PyInt 1) (PyInt 1) PyNone PyNone PyNone
         no_kwargs = Ok df
       /\ tsv_values df = [NaN; tiny].
Proof.
  cbv zeta. repeat split; try (vm_compute; reflexivity).
  eexists. split; vm_compute; reflexivity.
Qed.

(* ================================================================= *)
(** ** The ratio (line 54) *)







(* ================================================================= *)
(** ** Fills (lines 63 to 70) *)

Lemma length_fillna_value (v : value) (s : Series) :
  List.length (fillna_value v s) = List.length s.
Proof. apply length_map. Qed.

Lemma cell_fillna_value (v : value) (s : Series) (i : Z) :
  0 <= i < Z.of_nat (List.length s) ->
  cell (fillna_value v s) i = if isna (cell s i) then v else cell s i.
Proof. intros Hi. unfold fillna_value. now rewrite cell_map. Qed.

Lemma no_nulls_fillna_value (v : value) (s : Series) :
  isna v = false -> no_nulls (fillna_value v s) = true.
Proof.
  intros Hv. unfold no_nulls, fillna_value.
  induction s as [|x s IH]; [reflexivity|].
  simpl. rewrite IH, andb_true_r. unfold notna.
  destruct (isna x) eqn:Hx; [now rewrite Hv|now rewrite Hx].
Qed.

Lemma pad_from_no_nulls (last : value) (s : Series) :
  no_nulls s = true -> pad_from last s = s.
Proof.
  revert last. induction s as [|x s IH]; intros last Hs; [reflexivity|].
  simpl in Hs. apply andb_true_iff in Hs. destruct Hs as [Hx Hs].
  simpl. unfold notna in Hx. apply negb_true_iff in Hx. rewrite Hx.
  now rewrite IH.
Qed.

Lemma no_nulls_rev (s : Series) : no_nulls s = true -> no_nulls (rev s) = true.
Proof.
  unfold no_nulls. rewrite !forallb_forall.
  intros H x Hx. apply H. now apply in_rev.
Qed.

(** On a Series without nulls a fill method has nothing to fill. *)
Lemma fill_dir_no_nulls (d : fill_direction) (s : Series) :
  no_nulls s = true -> fill_dir d s = s.
Proof.
  intros Hs. destruct d; simpl.
  - now apply pad_from_no_nulls.
  - rewrite pad_from_no_nulls by now apply no_nulls_rev.
    apply rev_involutive.
Qed.

Lemma fillna_method_no_nulls (m : string) (d : fill_direction) (s : Series) :
  clean_fill_method m = Ok d -> no_nulls s = true -> fillna_method m s = Ok s.
Proof.
  intros Hm Hs. unfold fillna_method. rewrite Hm. simpl.
  now rewrite fill_dir_no_nulls.
Qed.

Lemma fill_step_fillna (v : value) (tsv signal_ ratio : Series) :
  fill_step (mkKwargs (Some v) None) tsv signal_ ratio
  = Ok (fillna_value v tsv, fillna_value v signal_, fillna_value v ratio).
Proof. reflexivity. Qed.

Lemma fill_step_both (v : value) (m : string) (d : fill_direction)
    (tsv signal_ ratio : Series) :
  isna v = false ->
  clean_fill_method m = Ok d ->
  fill_step (mkKwargs (Some v) (Some m)) tsv signal_ ratio
  = Ok (fillna_value v tsv, fillna_value v signal_, fillna_value v ratio).
Proof.
  intros Hv Hm. unfold fill_step. simpl.
  rewrite !(fillna_method_no_nulls m d) by (auto using no_nulls_fillna_value).
  reflexivity.
Qed.

Lemma fill_step_both_Ok_inv (v : value) (m : string)
    (tsv signal_ ratio : Series) (out : Series * Series * Series) :
  fill_step (mkKwargs (Some v) (Some m)) tsv signal_ ratio = Ok out ->
  exists d, clean_fill_method m = Ok d.
Proof.
  unfold fill_step, fillna_method. simpl.
  destruct (clean_fill_method m) as [d|e]; [eauto|discriminate].
Qed.

Section Fills.

Variable ma : string -> Series -> Z -> Series.

(** A call that returns with a [fillna] value returns the Series of
    the same call without fill options, filled with that value. *)
Lemma wb_tsv_fillna_Ok (close volume : Series)
    (length signal mamode drift offset : pyval)
    (v : value) (fm : option string) (df : DataFrame) :
  isna v = false ->
  wb_tsv ma close volume length signal mamode drift offset
    (mkKwargs (Some v) fm) = Ok df ->
  exists df0,
    wb_tsv ma close volume length signal mamode drift offset no_kwargs
    = Ok df0
    /\ tsv_values df = fillna_value v (tsv_values df0)
    /\ signal_values df = fillna_value v (signal_values df0)
    /\ ratio_values df = fillna_value v (ratio_values df0).
Proof.
  intros Hv Hdf.
  apply wb_tsv_Ok_inv in Hdf. destruct Hdf as (l & s & Hl & Hs & H0 & Hdf).
  rewrite (wb_tsv_validated ma _ _ _ _ _ _ _ _ l s Hl Hs), H0.
  rewrite wb_tsv_result_zero in *. simpl.
  eexists. split; [reflexivity|].
  destruct fm as [m|].
  - destruct (fill_step (mkKwargs (Some v) (Some m))
                (tsv_of close volume l (get_drift drift))
                (signal_of ma close volume l s (str_or_sma mamode)
                   (get_drift drift))
                (ratio_of ma close volume l s (str_or_sma mamode)
                   (get_drift drift))) as [out|e] eqn:Hfill;
      [|discriminate].
    destruct (fill_step_both_Ok_inv _ _ _ _ _ _ Hfill) as [d Hm].
    rewrite (fill_step_both v m d) in Hfill by assumption.
    injection Hfill as <-. simpl in Hdf. injection Hdf as <-.
    repeat split.
  - rewrite fill_step_fillna in Hdf. simpl in Hdf. injection Hdf as <-.
    repeat split.
Qed.

End Fills.

(** C9. A call that is given a (non-null) [fillna] value and returns
    has, in each of its three Series, that value at every position
    where the Series of the same call without fill options is null, and
    the cell of that Series elsewhere; none of the three has a null
    left. *)
Theorem fillna_replaces_every_null
    (ma : string -> Series -> Z -> Series) (close volume : Series)
    (length signal mamode drift offset : pyval)
    (v : value) (fm : option string) (df : DataFrame) :
  isna v = false ->
  wb_tsv ma close volume length signal mamode drift offset
    (mkKwargs (Some v) fm) = Ok df ->
  exists df0,
    wb_tsv ma close volume length signal mamode drift offset no_kwargs = Ok df0
    /\ (forall i,
          0 <= i < Z.of_nat (List.length (tsv_values df0)) ->
          cell (tsv_values df) i
          = if isna (cell (tsv_values df0) i) then v
            else cell (tsv_values df0) i)
    /\ (forall i,
          0 <= i < Z.of_nat (List.length (signal_values df0)) ->
          cell (signal_values df) i
          = if isna (cell (signal_values df0) i) then v
            else cell (signal_values df0) i)
    /\ (forall i,
          0 <= i < Z.of_nat (List.length (ratio_values df0)) ->
          cell (ratio_values df) i
          = if isna (cell (ratio_values df0) i) then v
            else cell (ratio_values df0) i)
    /\ List.length (tsv_values df) = List.length (tsv_values df0)
    /\ List.length (signal_values df) = List.length (signal_values df0)
    /\ List.length (ratio_values df) = List.length (ratio_values df0)
    /\ no_nulls (tsv_values df) = true
    /\ no_nulls (signal_values df) = true
    /\ no_nulls (ratio_values df) = true.
Proof.
  intros Hv Hdf.
  destruct (wb_tsv_fillna_Ok ma _ _ _ _ _ _ _ _ _ _ Hv Hdf)
    as (df0 & Hdf0 & Ht & Hs & Hr).
  exists df0. rewrite Ht, Hs, Hr.
  split; [exact Hdf0|].
  repeat split;
    auto using cell_fillna_value, length_fillna_value, no_nulls_fillna_value.
Qed.

Lemma fillna_replaces_every_null_witness :
  isna (num 0) = false
  /\ exists df,
       wb_tsv sma close4 volume4 (PyInt 2) (PyInt 1) PyNone PyNone PyNone
         (mkKwargs (Some (num 0)) None) = Ok df
       /\ tsv_values df = [num 0; num 0; num 2; num 3]
       /\ no_nulls (tsv_values df) = true
       /\ no_nulls (signal_values df) = true
       /\ no_nulls (ratio_values df) = true.
Proof.
  split; [reflexivity|].
  eexists. split; [reflexivity|]. split; [reflexivity|].
  destruct (fillna_replaces_every_null sma close4 volume4 (PyInt 2) (PyInt 1)
              PyNone PyNone PyNone (num 0) None _ eq_refl eq_refl)
    as (df0 & _ & _ & _ & _ & _ & _ & _ & Ht & Hs & Hr).
  auto.
Defined.

Section FillOrder.

Variable ma : string -> Series -> Z -> Series.

(** A call with both options that returns was given a method name
    pandas knows. *)
Lemma wb_tsv_both_Ok_method (close volume : Series)
    (length signal mamode drift offset : pyval)
    (v : value) (m : string) (df : DataFrame) :
  wb_tsv ma close volume length signal mamode drift offset
    (mkKwargs (Some v) (Some m)) = Ok df ->
  exists d, clean_fill_method m = Ok d.
Proof.
  intros Hdf. apply wb_tsv_Ok_inv in Hdf.
  destruct Hdf as (l & s & _ & _ & _ & Hdf).
  rewrite wb_tsv_result_zero in Hdf.
  destruct (fill_step (mkKwargs (Some v) (Some m))
              (tsv_of close volume l (get_drift drift))
              (signal_of ma close volume l s (str_or_sma mamode)
                 (get_drift drift))
              (ratio_of ma close volume l s (str_or_sma mamode)
                 (get_drift drift))) as [out|e] eqn:Hfill; [|discriminate].
  exact (fill_step_both_Ok_inv _ _ _ _ _ _ Hfill).
Qed.

(** With a method name pandas knows, the call with both options is the
    call with [fillna] alone. *)
Lemma wb_tsv_both_is_fillna (close volume : Series)
    (length signal mamode drift offset : pyval)
    (v : value) (m : string) (d : fill_direction) :
  isna v = false ->
  clean_fill_method m = Ok d ->
  wb_tsv ma close volume length signal mamode drift offset
    (mkKwargs (Some v) (Some m))
  = wb_tsv ma close volume length signal mamode drift offset
      (mkKwargs (Some v) None).
Proof.
  intros Hv Hm. unfold wb_tsv, wb_tsv_result.
  destruct (int_if_positive length 18) as [l|e]; [|reflexivity].
  destruct (int_if_positive signal 10) as [s|e]; [|reflexivity].
  cbv zeta. cbn [bind].
  destruct (offset_step _ _ _ _ _) as [[[t sg] r]|e]; [|reflexivity].
  cbn [bind]. now rewrite (fill_step_both v m d), fill_step_fillna.
Qed.

End FillOrder.

(** C10. A call that is given both options (the [fillna] value not
    null) and returns is the call with [fillna] alone.  The value fill
    of lines 64 to 66 runs first, on all three Series: each returned
    Series has the cells of the Series of the call without fill
    options, with the [fillna] value at every null; none has a null
    left; and the method fill of lines 68 to 70, applied to what the
    value fill produced, returns it unchanged. *)
Theorem fill_method_after_fillna_changes_nothing
    (ma : string -> Series -> Z -> Series) (close volume : Series)
    (length signal mamode drift offset : pyval)
    (v : value) (m : string) (df : DataFrame) :
  isna v = false ->
  wb_tsv ma close volume length signal mamode drift offset
    (mkKwargs (Some v) (Some m)) = Ok df ->
  wb_tsv ma close volume length signal mamode drift offset
    (mkKwargs (Some v) None) = Ok df
  /\ exists df0,
       wb_tsv ma close volume length signal mamode drift offset no_kwargs
       = Ok df0
       /\ List.length (tsv_values df) = List.length (tsv_values df0)
       /\ List.length (signal_values df) = List.length (signal_values df0)
       /\ List.length (ratio_values df) = List.length (ratio_values df0)
       /\ (forall i,
             0 <= i < Z.of_nat (List.length (tsv_values df0)) ->
             cell (tsv_values df) i
             = if isna (cell (tsv_values df0) i) then v
               else cell (tsv_values df0) i)
       /\ (forall i,
             0 <= i < Z.of_nat (List.length (signal_values df0)) ->
             cell (signal_values df) i
             = if isna (cell (signal_values df0) i) then v
               else cell (signal_values df0) i)
       /\ (forall i,
             0 <= i < Z.of_nat (List.length (ratio_values df0)) ->
             cell (ratio_values df) i
             = if isna (cell (ratio_values df0) i) then v
               else cell (ratio_values df0) i)
       /\ no_nulls (tsv_values df) = true
       /\ no_nulls (signal_values df) = true
       /\ no_nulls (ratio_values df) = true
       /\ fillna_method m (fillna_value v (tsv_values df0))
          = Ok (tsv_values df)
       /\ fillna_method m (fillna_value v (signal_values df0))
          = Ok (signal_values df)
       /\ fillna_method m (fillna_value v (ratio_values df0))
          = Ok (ratio_values df)
       /\ fillna_value v (tsv_values df0) = tsv_values df
       /\ fillna_value v (signal_values df0) = signal_values df
       /\ fillna_value v (ratio_values df0) = ratio_values df.
Proof.
  intros Hv Hdf.
  destruct (wb_tsv_both_Ok_method ma _ _ _ _ _ _ _ _ _ _ Hdf) as [d Hm].
  split.
  - now rewrite <- (wb_tsv_both_is_fillna ma _ _ _ _ _ _ _ v m d Hv Hm).
  - destruct (wb_tsv_fillna_Ok ma _ _ _ _ _ _ _ _ _ _ Hv Hdf)
      as (df0 & Hdf0 & Ht & Hs & Hr).
    exists df0. rewrite Ht, Hs, Hr.
    split; [exact Hdf0|].
    repeat split;
      auto using cell_fillna_value, length_fillna_value,
        no_nulls_fillna_value;
      apply (fillna_method_no_nulls m d);
      auto using no_nulls_fillna_value.
Qed.

Lemma fill_method_after_fillna_changes_nothing_witness :
  isna (num 7) = false
  /\ exists df,
       wb_tsv sma close4 volume4 (PyInt 2) (PyInt 1) PyNone PyNone PyNone
         (mkKwargs (Some (num 7)) (Some "ffill"%string)) = Ok df
       /\ wb_tsv sma close4 volume4 (PyInt 2) (PyInt 1) PyNone PyNone PyNone
            (mkKwargs (Some (num 7)) None) = Ok df
       /\ tsv_values df = [num 7; num 7; num 2; num 3].
Proof.
  split; [reflexivity|].
  eexists. split; [reflexivity|].
  split; [|reflexivity].
  exact (proj1 (fill_method_after_fillna_changes_nothing sma close4 volume4
                  (PyInt 2) (PyInt 1) PyNone PyNone PyNone (num 7)
                  "ffill"%string _ eq_refl eq_refl)).
Defined.

(* ================================================================= *)
(** ** The rolling sum (lines 50 and 52) *)

Lemma In_zrange (lo count j : Z) :
  In j (zrange lo count) <-> lo <= j < lo + count.
Proof.
  unfold zrange. rewrite in_map_iff. split.
  - intros (k & <- & Hk). apply in_seq in Hk. lia.
  - intros Hj. exists (Z.to_nat (j - lo)). split; [lia|].
    apply in_seq. lia.
Qed.

Lemma length_zrange (lo count : Z) :
  List.length (zrange lo count) = Z.to_nat count.
Proof. unfold zrange. now rewrite length_map, length_seq. Qed.

Lemma length_window (s : Series) (w i : Z) :
  List.length (window s w i) = Z.to_nat (i + 1 - Z.max 0 (i - w + 1)).
Proof. unfold window. cbv zeta. now rewrite length_map, length_zrange. Qed.

Lemma In_window (s : Series) (w i : Z) (x : value) :
  In x (window s w i)
  <-> exists j, Z.max 0 (i - w + 1) <= j <= i /\ x = cell s j.
Proof.
  unfold window. cbv zeta. rewrite in_map_iff. split.
  - intros (j & <- & Hj). apply In_zrange in Hj. exists j. split; [lia|easy].
  - intros (j & Hj & ->). exists j. split; [easy|]. apply In_zrange. lia.
Qed.

Lemma filter_keeps_all {A : Type} (f : A -> bool) (l : list A) :
  (forall x, In x l -> f x = true) -> filter f l = l.
Proof. intros H. apply forallb_filter_id, forallb_forall, H. Qed.

Lemma filter_drops_one {A : Type} (f : A -> bool) (l : list A) (x : A) :
  In x l -> f x = false -> (List.length (filter f l) < List.length l)%nat.
Proof.
  induction l as [|y l IH]; intros Hin Hx; [contradiction|].
  simpl. destruct Hin as [->|Hin].
  - rewrite Hx. pose proof (filter_length_le f l). lia.
  - specialize (IH Hin Hx). destruct (f y); simpl; lia.
Qed.

Lemma is_finite_notna (x : value) : is_finite x = true -> notna x = true.
Proof. now destruct x. Qed.

Lemma is_finite_vadd (a b : value) :
  is_finite a = true -> is_finite b = true -> is_finite (vadd a b) = true.
Proof. now destruct a, b. Qed.

Lemma is_finite_vsum_from (l : list value) (acc : value) :
  is_finite acc = true ->
  (forall x, In x l -> is_finite x = true) ->
  is_finite (fold_left vadd l acc) = true.
Proof.
  revert acc. induction l as [|x l IH]; intros acc Hacc Hl; [exact Hacc|].
  simpl. apply IH.
  - apply is_finite_vadd; [exact Hacc|]. apply Hl. now left.
  - intros y Hy. apply Hl. now right.
Qed.

(** Fewer than [w] positions up to [i]: no sum yet. *)
Lemma rolling_sum_at_short (s : Series) (w i : Z) :
  0 <= i < w - 1 -> rolling_sum_at s w i = NaN.
Proof.
  intros Hi. unfold rolling_sum_at. cbv zeta.
  pose proof (filter_length_le is_finite (window s w i)) as Hle.
  rewrite length_window in Hle.
  destruct (Z.leb_spec w
              (Z.of_nat (List.length (filter is_finite (window s w i)))));
    [lia|reflexivity].
Qed.

(** A null cell in the window: no sum either. *)
Lemma rolling_sum_at_hole (s : Series) (w i j : Z) :
  0 <= i -> 0 <= j -> i - w + 1 <= j <= i -> cell s j = NaN ->
  rolling_sum_at s w i = NaN.
Proof.
  intros Hi Hj Hwin Hnull. unfold rolling_sum_at. cbv zeta.
  assert (Hin : In NaN (window s w i)).
  { apply In_window. exists j. split; [lia|now rewrite Hnull]. }
  pose proof (filter_drops_one is_finite _ _ Hin eq_refl) as Hlt.
  rewrite length_window in Hlt.
  destruct (Z.leb_spec w
              (Z.of_nat (List.length (filter is_finite (window s w i)))));
    [lia|reflexivity].
Qed.

(** A full window of finite cells: their sum. *)
Lemma rolling_sum_at_full (s : Series) (w i : Z) :
  1 <= w -> w - 1 <= i ->
  (forall j, i - w + 1 <= j <= i -> is_finite (cell s j) = true) ->
  rolling_sum_at s w i = vsum (map (cell s) (zrange (i - w + 1) w))
  /\ is_finite (rolling_sum_at s w i) = true.
Proof.
  intros Hw Hi Hfin.
  assert (Hwin : window s w i = map (cell s) (zrange (i - w + 1) w)).
  { unfold window. cbv zeta.
    replace (Z.max 0 (i - w + 1)) with (i - w + 1) by lia.
    do 2 f_equal. lia. }
  assert (Hall : forall x, In x (window s w i) -> is_finite x = true).
  { intros x Hx. apply In_window in Hx. destruct Hx as (j & Hj & ->).
    apply Hfin. lia. }
  assert (Hsum : rolling_sum_at s w i = vsum (window s w i)).
  { unfold rolling_sum_at. cbv zeta.
    rewrite filter_keeps_all by exact Hall.
    rewrite length_window.
    destruct (Z.leb_spec w (Z.of_nat (Z.to_nat (i + 1 - Z.max 0 (i - w + 1)))));
      [reflexivity|lia]. }
  split.
  - now rewrite Hsum, Hwin.
  - rewrite Hsum. unfold vsum. now apply is_finite_vsum_from.
Qed.

Lemma cell_rolling_sum (s : Series) (w i : Z) :
  0 <= i < Z.of_nat (List.length s) ->
  cell (rolling_sum s w) i = rolling_sum_at s w i.
Proof. intros Hi. unfold rolling_sum. now rewrite cell_tabulate. Qed.

(** *** The cells of [cvd] on finite inputs *)

Lemma cell_all_finite (s : Series) (i : Z) :
  all_finite s = true -> 0 <= i < Z.of_nat (List.length s) ->
  is_finite (cell s i) = true.
Proof.
  intros Hs Hi. rewrite cell_in by assumption.
  unfold all_finite in Hs. rewrite forallb_forall in Hs.
  apply Hs, nth_In. lia.
Qed.

Lemma length_signed_series (s : Series) (lag : Z) :
  List.length (signed_series s lag) = List.length s.
Proof. unfold signed_series. now rewrite length_map, length_Series_diff. Qed.

Lemma cell_signed_series_finite (s : Series) (lag i : Z) :
  0 <= i < Z.of_nat (List.length s) ->
  is_finite (cell (signed_series s lag) i) = true.
Proof.
  intros Hi. unfold signed_series.
  rewrite cell_map by (rewrite length_Series_diff; lia). reflexivity.
Qed.

Lemma is_finite_vmul (a b : value) :
  is_finite a = true -> is_finite b = true -> is_finite (vmul a b) = true.
Proof. now destruct a, b. Qed.

Lemma is_finite_vsub (a b : value) :
  is_finite a = true -> is_finite b = true -> is_finite (vsub a b) = true.
Proof. now destruct a, b. Qed.

Lemma vsub_null (a : value) : vsub a NaN = NaN.
Proof. now destruct a. Qed.

Lemma vmul_null (a : value) : vmul a NaN = NaN.
Proof. now destruct a. Qed.

Lemma is_finite_negate_if_negative (x : value) :
  is_finite x = true -> is_finite (negate_if_negative x) = true.
Proof.
  destruct x as [p| | |]; try discriminate. intros _.
  unfold negate_if_negative. now destruct (lt0 (Fin p)).
Qed.

Lemma length_cvd_of (close volume : Series) (drift : Z) :
  List.length close = List.length volume ->
  List.length (cvd_of close volume drift) = List.length close.
Proof.
  intros Hlen. unfold cvd_of, Series_mul.
  rewrite length_align, length_signed_volume_from, length_signed_series,
    length_Series_diff. lia.
Qed.

(** With finite inputs, [cvd] is null on the first [drift] positions
    (there is no earlier close to subtract) and finite after them. *)
Lemma cell_cvd_of (close volume : Series) (drift i : Z) :
  all_finite close = true -> all_finite volume = true ->
  List.length close = List.length volume ->
  0 < drift ->
  0 <= i < Z.of_nat (List.length close) ->
  (i < drift -> cell (cvd_of close volume drift) i = NaN)
  /\ (drift <= i -> is_finite (cell (cvd_of close volume drift) i) = true).
Proof.
  intros Hc Hv Hlen Hd Hi.
  assert (Hcell : cell (cvd_of close volume drift) i
                  = vmul (negate_if_negative
                            (vmul (cell volume i)
                               (cell (signed_series close 1) i)))
                      (vsub (cell close i) (cell close (i - drift)))).
  { unfold cvd_of, Series_mul.
    rewrite cell_align
      by (rewrite length_signed_volume_from, length_signed_series,
            length_Series_diff; lia).
    rewrite cell_signed_volume_from by (rewrite length_signed_series; lia).
    now rewrite cell_Series_diff. }
  rewrite Hcell. split; intros Hid.
  - rewrite (cell_out close (i - drift)) by lia.
    now rewrite vsub_null, vmul_null.
  - apply is_finite_vmul.
    + apply is_finite_negate_if_negative, is_finite_vmul.
      * apply cell_all_finite; [assumption|lia].
      * now apply cell_signed_series_finite.
    + apply is_finite_vsub; apply cell_all_finite; assumption || lia.
Qed.

Lemma get_drift_positive (x : pyval) : 0 < get_drift x.
Proof.
  destruct x as [|b|z|v|s]; simpl; try lia.
  destruct (Z.ltb_spec 0 z); lia.
Qed.

Lemma positive_or_positive (o : option Z) (default : Z) :
  0 < default -> 0 < positive_or o default.
Proof.
  intros Hd. destruct o as [z|]; simpl; [|exact Hd].
  destruct (Z.ltb_spec 0 z); lia.
Qed.

(** C4, as the code has it.  With offset 0, no fill options and finite
    inputs of one length, the call returns, and [tsv] is null exactly
    on the first [length - 1 + drift] positions: the difference of line
    50 has no value on the first [drift] positions, and a window that
    holds one of them has no sum.  From position [length - 1 + drift]
    on, [tsv(i)] is the finite sum of [cvd] over [i-length+1 .. i]. *)
Theorem tsv_null_prefix
    (ma : string -> Series -> Z -> Series) (close volume : Series)
    (length signal : option Z) (mamode drift offset : pyval) :
  all_finite close = true ->
  all_finite volume = true ->
  List.length close = List.length volume ->
  get_offset offset = 0 ->
  exists df,
    wb_tsv ma close volume (int_arg length) (int_arg signal) mamode drift
      offset no_kwargs = Ok df
    /\ List.length (tsv_values df) = List.length close
    /\ forall i,
         0 <= i < Z.of_nat (List.length close) ->
         (i < positive_or length 18 - 1 + get_drift drift ->
          cell (tsv_values df) i = NaN)
         /\ (positive_or length 18 - 1 + get_drift drift <= i ->
             is_finite (cell (tsv_values df) i) = true
             /\ cell (tsv_values df) i
                = vsum (map (cell (cvd_of close volume (get_drift drift)))
                          (zrange (i - positive_or length 18 + 1)
                             (positive_or length 18)))).
Proof.
  intros Hc Hv Hlen H0.
  rewrite (wb_tsv_validated ma _ _ _ _ _ _ _ _ _ _
             (int_if_positive_int_arg length 18)
             (int_if_positive_int_arg signal 10)).
  rewrite H0, wb_tsv_result_zero. simpl.
  eexists. split; [reflexivity|].
  unfold tsv_values. simpl. unfold tsv_of.
  set (L := positive_or length 18).
  set (D := get_drift drift).
  assert (HL : 0 < L) by (apply positive_or_positive; lia).
  assert (HD : 0 < D) by apply get_drift_positive.
  split; [now rewrite length_rolling_sum, length_cvd_of|].
  intros i Hi.
  rewrite cell_rolling_sum by (rewrite length_cvd_of; assumption).
  split; intros Hwarm.
  - destruct (Z_lt_dec i (L - 1)) as [Hshort|Hlong].
    + apply rolling_sum_at_short. lia.
    + apply (rolling_sum_at_hole _ L i (i - L + 1)); try lia.
      apply (cell_cvd_of close volume D (i - L + 1)); trivial; lia.
  - destruct (rolling_sum_at_full (cvd_of close volume D) L i) as [Hsum Hfin];
      try lia; [|now split].
    intros j Hj.
    apply (cell_cvd_of close volume D j); trivial; lia.
Qed.

Lemma tsv_null_prefix_witness :
  all_finite close4 = true
  /\ all_finite volume4 = true
  /\ List.length close4 = List.length volume4
  /\ get_offset PyNone = 0
  /\ exists df,
       wb_tsv sma close4 volume4 (int_arg (Some 2)) (int_arg (Some 1)) PyNone
         PyNone PyNone no_kwargs = Ok df
       /\ cell (tsv_values df) 1 = NaN
       /\ is_finite (cell (tsv_values df) 2) = true.
Proof.
  split; [reflexivity|]. split; [reflexivity|]. split; [reflexivity|].
  split; [reflexivity|].
  destruct (tsv_null_prefix sma close4 volume4 (Some 2) (Some 1) PyNone PyNone
              PyNone eq_refl eq_refl eq_refl eq_refl) as (df & Hdf & _ & Hcells).
  exists df. split; [exact Hdf|].
  assert (Hlen : Z.of_nat (List.length close4) = 4) by reflexivity.
  assert (HL : positive_or (Some 2) 18 = 2) by reflexivity.
  assert (HD : get_drift PyNone = 1) by reflexivity.
  assert (H1 : 0 <= 1 < Z.of_nat (List.length close4)) by (rewrite Hlen; lia).
  assert (H2 : 0 <= 2 < Z.of_nat (List.length close4)) by (rewrite Hlen; lia).
  split.
  - apply (proj1 (Hcells 1 H1)). rewrite HL, HD. lia.
  - apply (proj2 (Hcells 2 H2)). rewrite HL, HD. lia.
Defined.

(** C4 fails as stated: at position [length - 1] the window holds
    position 0, where [cvd] is null, and [tsv] is still null.  On the
    fixture of the specification (twenty closes, length 18) [tsv(17)]
    is null; the first value is [tsv(18)]. *)
Lemma tsv_null_at_length_minus_one :
  exists df,
    wb_tsv sma close20 volume20 PyNone PyNone PyNone PyNone PyNone no_kwargs
    = Ok df
    /\ all_finite close20 = true
    /\ all_finite volume20 = true
    /\ 18 - 1 <= 17
    /\ isna (cell (tsv_values df) 17) = true
    /\ cell (tsv_values df) 18 = num 13000.
Proof.
  eexists. split; [vm_compute; reflexivity|].
  repeat split; try (vm_compute; reflexivity). lia.
Qed.

(* ================================================================= *)
(** ** The absolute-value correction and the sign series *)







(* ================================================================= *)
(** * Further properties of [wb_tsv] *)

(** ** Validation of [length] and [signal] (lines 40 and 41) *)

(** Validation raises in two cases only: a non-empty string
    (TypeError, from the comparison with 0) and the float +infinity
    (OverflowError, from [int]).  Every other argument, of whatever
    type, gives a value or the default. *)
Theorem int_if_positive_raises_iff (x : pyval) (default : Z) (e : pyerr) :
  int_if_positive x default = Err e
  <-> (exists c s, x = PyStr (String c s) /\ e = TypeError)
      \/ (x = PyFloat PosInf /\ e = OverflowError).
Proof.
  split.
  - destruct x as [|b|z|v|s]; unfold int_if_positive.
    + discriminate.
    + destruct b; discriminate.
    + simpl. destruct (z =? 0); simpl; [discriminate|].
      destruct (0 <? z); discriminate.
    + destruct v as [p| | |]; simpl.
      * destruct (Z.sgn (Qnum p) =? 0); simpl; [discriminate|].
        destruct (0 <? Z.sgn (Qnum p)); discriminate.
      * intros [= <-]. now right.
      * discriminate.
      * discriminate.
    + destruct s as [|c s]; simpl; [discriminate|].
      intros [= <-]. left. now exists c, s.
  - intros [(c & s & -> & ->)|[-> ->]]; reflexivity.
Qed.

(** A validated window is never negative, and it is positive unless
    the argument is a float: a float between 0 and 1 passes the test
    [x > 0] and [int] truncates it to 0. *)
Theorem int_if_positive_range (x : pyval) (default n : Z) :
  0 < default ->
  int_if_positive x default = Ok n ->
  0 <= n
  /\ ((forall v, x <> PyFloat v) -> 0 < n)
  /\ int_if_positive (PyFloat (Fin (1 # 2))) default = Ok 0.
Proof.
  intros Hd Hx. split; [|split; [|reflexivity]].
  - destruct x as [|b|z|v|s]; unfold int_if_positive in Hx.
    + injection Hx as <-. lia.
    + destruct b; injection Hx as <-; lia.
    + simpl in Hx. destruct (z =? 0); simpl in Hx; [injection Hx as <-; lia|].
      destruct (Z.ltb_spec 0 z); injection Hx as <-; lia.
    + destruct v as [p| | |]; simpl in Hx; try (injection Hx as <-; lia).
      * destruct (Z.sgn (Qnum p) =? 0); simpl in Hx; [injection Hx as <-; lia|].
        destruct (Z.ltb_spec 0 (Z.sgn (Qnum p))); injection Hx as <-; [|lia].
        apply Z.quot_pos; lia.
      * discriminate.
    + destruct s; simpl in Hx; [injection Hx as <-; lia|discriminate].
  - intros Hnf. destruct x as [|b|z|v|s]; unfold int_if_positive in Hx.
    + injection Hx as <-. lia.
    + destruct b; injection Hx as <-; lia.
    + simpl in Hx. destruct (z =? 0); simpl in Hx; [injection Hx as <-; lia|].
      destruct (Z.ltb_spec 0 z); injection Hx as <-; lia.
    + now destruct (Hnf v).
    + destruct s; simpl in Hx; [injection Hx as <-; lia|discriminate].
Qed.

Lemma int_if_positive_range_witness :
  0 < 18
  /\ int_if_positive (PyBool true) 18 = Ok 1
  /\ 0 <= 1.
Proof.
  assert (Hd : 0 < 18) by lia.
  split; [exact Hd|]. split; [reflexivity|].
  exact (proj1 (int_if_positive_range (PyBool true) 18 1 Hd eq_refl)).
Defined.

(* ================================================================= *)
(** ** The columns of a returned table *)

Lemma fill_step_components (kw : kwargs) (tsv signal_ ratio : Series) :
  fill_step kw tsv signal_ ratio
  = (tsv <- fill_series kw tsv ;;
     signal_ <- fill_series kw signal_ ;;
     ratio <- fill_series kw ratio ;;
     Ok (tsv, signal_, ratio)).
Proof.
  unfold fill_step, fill_series, fill_value_of.
  destruct kw as [[v|] [m|]]; reflexivity.
Qed.

(** A returned table holds the three Series of lines 52 to 54, each
    passed through the same fill. *)
Lemma wb_tsv_Ok_columns
    (ma : string -> Series -> Z -> Series) (close volume : Series)
    (length signal mamode drift offset : pyval) (kw : kwargs) (df : DataFrame) :
  wb_tsv ma close volume length signal mamode drift offset kw = Ok df ->
  exists l s tsv signal_ ratio,
    int_if_positive length 18 = Ok l
    /\ int_if_positive signal 10 = Ok s
    /\ get_offset offset = 0
    /\ fill_series kw (tsv_of close volume l (get_drift drift)) = Ok tsv
    /\ fill_series kw
         (signal_of ma close volume l s (str_or_sma mamode) (get_drift drift))
       = Ok signal_
    /\ fill_series kw
         (ratio_of ma close volume l s (str_or_sma mamode) (get_drift drift))
       = Ok ratio
    /\ df = name_and_package l s tsv signal_ ratio.
Proof.
  intros Hdf. apply wb_tsv_Ok_inv in Hdf.
  destruct Hdf as (l & s & Hl & Hs & H0 & Hdf).
  rewrite wb_tsv_result_zero, fill_step_components in Hdf.
  destruct (fill_series kw (tsv_of close volume l (get_drift drift)))
    as [t|e] eqn:Ht; [|discriminate].
  destruct (fill_series kw (signal_of ma close volume l s (str_or_sma mamode)
                              (get_drift drift))) as [sg|e] eqn:Hsg;
    [|discriminate].
  destruct (fill_series kw (ratio_of ma close volume l s (str_or_sma mamode)
                              (get_drift drift))) as [r|e] eqn:Hr;
    [|discriminate].
  simpl in Hdf. injection Hdf as <-.
  exists l, s, t, sg, r. auto 10.
Qed.

(* ================================================================= *)
(** ** Names and lengths of the returned table (lines 72 to 83) *)

(** The three columns are labelled TSV, TSVs and TSVr followed by the
    validated [length] and [signal]; the labels are pairwise distinct,
    so the table has three columns; the table carries the name of the
    [tsv] column and the category "volume". *)
Theorem wb_tsv_names
    (ma : string -> Series -> Z -> Series) (close volume : Series)
    (length signal mamode drift offset : pyval) (kw : kwargs) (df : DataFrame) :
  wb_tsv ma close volume length signal mamode drift offset kw = Ok df ->
  exists l s,
    int_if_positive length 18 = Ok l
    /\ int_if_positive signal 10 = Ok s
    /\ col_name (df_tsv df) = ("TSV" ++ props_of l s)%string
    /\ col_name (df_signal df) = ("TSVs" ++ props_of l s)%string
    /\ col_name (df_ratio df) = ("TSVr" ++ props_of l s)%string
    /\ df_name df = col_name (df_tsv df)
    /\ col_name (df_tsv df) <> col_name (df_signal df)
    /\ col_name (df_tsv df) <> col_name (df_ratio df)
    /\ col_name (df_signal df) <> col_name (df_ratio df)
    /\ df_category df = "volume"%string.
Proof.
  intros Hdf. apply wb_tsv_Ok_columns in Hdf.
  destruct Hdf as (l & s & t & sg & r & Hl & Hs & _ & _ & _ & _ & ->).
  exists l, s. unfold name_and_package, props_of. simpl.
  repeat split; trivial; discriminate.
Qed.

Lemma wb_tsv_names_witness :
  exists df,
    wb_tsv sma close20 volume20 PyNone PyNone PyNone PyNone PyNone no_kwargs
    = Ok df
    /\ col_name (df_tsv df) = "TSV_18_10"%string
    /\ col_name (df_signal df) = "TSVs_18_10"%string
    /\ col_name (df_ratio df) = "TSVr_18_10"%string.
Proof.
  eexists. split; [reflexivity|].
  destruct (wb_tsv_names sma close20 volume20 PyNone PyNone PyNone PyNone
              PyNone no_kwargs _ eq_refl)
    as (l & s & Hl & Hs & Ht & Hsg & Hr & _).
  injection Hl as <-. injection Hs as <-.
  rewrite Ht, Hsg, Hr. repeat split.
Defined.

Lemma length_pad_from (last : value) (s : Series) :
  List.length (pad_from last s) = List.length s.
Proof.
  revert last. induction s as [|x s IH]; intros last; [reflexivity|].
  simpl. destruct (isna x); simpl; now rewrite IH.
Qed.

Lemma length_fill_dir (d : fill_direction) (s : Series) :
  List.length (fill_dir d s) = List.length s.
Proof.
  destruct d; simpl.
  - apply length_pad_from.
  - now rewrite length_rev, length_pad_from, length_rev.
Qed.

Lemma length_fill_series (kw : kwargs) (s s' : Series) :
  fill_series kw s = Ok s' -> List.length s' = List.length s.
Proof.
  unfold fill_series, fill_value_of, fillna_method.
  assert (Hv : List.length match kw_fillna kw with
                           | Some v => fillna_value v s
                           | None => s
                           end = List.length s).
  { destruct (kw_fillna kw); [apply length_fillna_value|reflexivity]. }
  destruct (kw_fill_method kw) as [m|].
  - destruct (clean_fill_method m) as [d|e]; [|discriminate].
    simpl. intros [= <-]. now rewrite length_fill_dir.
  - intros [= <-]. exact Hv.
Qed.

Lemma length_tsv_of (close volume : Series) (length drift : Z) :
  List.length (tsv_of close volume length drift)
  = Nat.max (List.length close) (List.length volume).
Proof.
  unfold tsv_of, cvd_of, Series_mul.
  rewrite length_rolling_sum, length_align, length_signed_volume_from,
    length_signed_series, length_Series_diff. lia.
Qed.

(** Whatever the fill options, the returned [tsv] has one cell for
    each position of the longer input (for inputs of one length: as
    many cells as the inputs), and the ratio one for each position of
    the longer of [tsv] and the signal line. *)
Theorem wb_tsv_lengths
    (ma : string -> Series -> Z -> Series) (close volume : Series)
    (length signal mamode drift offset : pyval) (kw : kwargs) (df : DataFrame) :
  wb_tsv ma close volume length signal mamode drift offset kw = Ok df ->
  List.length (tsv_values df)
  = Nat.max (List.length close) (List.length volume)
  /\ List.length (ratio_values df)
     = Nat.max (List.length (tsv_values df)) (List.length (signal_values df)).
Proof.
  intros Hdf. apply wb_tsv_Ok_columns in Hdf.
  destruct Hdf as (l & s & t & sg & r & _ & _ & _ & Ht & Hsg & Hr & ->).
  unfold tsv_values, ratio_values, signal_values. simpl.
  apply length_fill_series in Ht, Hsg, Hr.
  rewrite Ht, Hsg, Hr. split; [apply length_tsv_of|].
  unfold ratio_of, Series_div. apply length_align.
Qed.

Lemma wb_tsv_lengths_witness :
  exists df,
    wb_tsv sma close20 volume20 PyNone PyNone PyNone PyNone PyNone
      (mkKwargs (Some (num 0)) (Some "bfill"%string)) = Ok df
    /\ List.length (tsv_values df) = 20%nat.
Proof.
  eexists. split; [reflexivity|].
  exact (proj1 (wb_tsv_lengths sma close20 volume20 PyNone PyNone PyNone
                  PyNone PyNone
                  (mkKwargs (Some (num 0)) (Some "bfill"%string)) _ eq_refl)).
Defined.

(** The [tsv] column does not depend on the smoothing: two returned
    calls on the same series, [length], [drift] and fill options have
    the same [tsv], whatever their moving average, [signal], [mamode]
    and [offset] arguments. *)
Theorem tsv_independent_of_smoothing
    (ma ma' : string -> Series -> Z -> Series) (close volume : Series)
    (length signal signal' mamode mamode' drift offset offset' : pyval)
    (kw : kwargs) (df df' : DataFrame) :
  wb_tsv ma close volume length signal mamode drift offset kw = Ok df ->
  wb_tsv ma' close volume length signal' mamode' drift offset' kw = Ok df' ->
  tsv_values df = tsv_values df'.
Proof.
  intros Hdf Hdf'.
  apply wb_tsv_Ok_columns in Hdf, Hdf'.
  destruct Hdf as (l & s & t & sg & r & Hl & _ & _ & Ht & _ & _ & ->).
  destruct Hdf' as (l' & s' & t' & sg' & r' & Hl' & _ & _ & Ht' & _ & _ & ->).
  unfold tsv_values. simpl.
  rewrite Hl in Hl'. injection Hl' as <-.
  rewrite Ht in Ht'. now injection Ht'.
Qed.

Lemma tsv_independent_of_smoothing_witness :
  exists df df',
    wb_tsv sma close4 volume4 (PyInt 2) (PyInt 1) PyNone PyNone PyNone
      no_kwargs = Ok df
    /\ wb_tsv (fun _ s _ => s) close4 volume4 (PyInt 2) (PyInt 3)
         (PyStr "ema") PyNone (PyInt 0) no_kwargs = Ok df'
    /\ tsv_values df = tsv_values df'.
Proof.
  eexists. eexists. split; [reflexivity|]. split; [reflexivity|].
  exact (tsv_independent_of_smoothing sma (fun _ s _ => s) close4 volume4
           (PyInt 2) (PyInt 1) (PyInt 3) PyNone (PyStr "ema") PyNone PyNone
           (PyInt 0) no_kwargs _ _ eq_refl eq_refl).
Defined.

(* ================================================================= *)
(** ** What a cell of [tsv] depends on (lines 47 to 52) *)

Lemma cell_signed_series (s : Series) (lag j : Z) :
  0 <= j < Z.of_nat (List.length s) ->
  cell (signed_series s lag) j
  = Fin (inject_Z (sgn (vsub (cell s j) (cell s (j - lag))))).
Proof.
  intros Hj. unfold signed_series.
  rewrite cell_map by (rewrite length_Series_diff; lia).
  now rewrite cell_Series_diff.
Qed.

Lemma cell_cvd_of_eq (close volume : Series) (drift j : Z) :
  List.length close = List.length volume ->
  0 <= j < Z.of_nat (List.length close) ->
  cell (cvd_of close volume drift) j
  = vmul (negate_if_negative
            (vmul (cell volume j) (cell (signed_series close 1) j)))
      (vsub (cell close j) (cell close (j - drift))).
Proof.
  intros Hlen Hj. unfold cvd_of, Series_mul.
  rewrite cell_align
    by (rewrite length_signed_volume_from, length_signed_series,
          length_Series_diff; lia).
  rewrite cell_signed_volume_from by (rewrite length_signed_series; lia).
  now rewrite cell_Series_diff.
Qed.

Lemma cells_agree_below (a b : Series) (i : Z) :
  (forall j, 0 <= j <= i -> cell a j = cell b j) ->
  forall j, j <= i -> cell a j = cell b j.
Proof.
  intros H j Hj. destruct (Z_lt_dec j 0) as [Hneg|Hpos].
  - now rewrite !cell_out by lia.
  - apply H. lia.
Qed.

Lemma fill_series_no_kwargs (s : Series) : fill_series no_kwargs s = Ok s.
Proof. reflexivity. Qed.

(** A returned call without fill options holds the [tsv] of line 52. *)
Lemma wb_tsv_no_kwargs_tsv
    (ma : string -> Series -> Z -> Series) (close volume : Series)
    (length signal mamode drift offset : pyval) (df : DataFrame) (l : Z) :
  wb_tsv ma close volume length signal mamode drift offset no_kwargs = Ok df ->
  int_if_positive length 18 = Ok l ->
  tsv_values df = tsv_of close volume l (get_drift drift).
Proof.
  intros Hdf Hl. apply wb_tsv_Ok_columns in Hdf.
  destruct Hdf as (l' & s & t & sg & r & Hl' & _ & _ & Ht & _ & _ & ->).
  rewrite Hl in Hl'. injection Hl' as <-.
  rewrite fill_series_no_kwargs in Ht. injection Ht as <-. reflexivity.
Qed.

(** No look-ahead: [tsv(i)] is a function of the inputs at positions
    up to [i].  Two calls whose inputs agree up to [i] (and may differ
    after it, or in length) return the same [tsv(i)]. *)
Theorem tsv_is_causal
    (ma : string -> Series -> Z -> Series)
    (close volume close' volume' : Series)
    (length signal mamode drift offset : pyval) (df df' : DataFrame) (i : Z) :
  wb_tsv ma close volume length signal mamode drift offset no_kwargs = Ok df ->
  wb_tsv ma close' volume' length signal mamode drift offset no_kwargs
  = Ok df' ->
  List.length close = List.length volume ->
  List.length close' = List.length volume' ->
  0 <= i < Z.of_nat (List.length close) ->
  i < Z.of_nat (List.length close') ->
  (forall j, 0 <= j <= i ->
             cell close j = cell close' j /\ cell volume j = cell volume' j) ->
  cell (tsv_values df) i = cell (tsv_values df') i.
Proof.
  intros Hdf Hdf' Hlen Hlen' Hi Hi' Hsame.
  destruct (wb_tsv_Ok_inv ma _ _ _ _ _ _ _ _ _ Hdf) as (l & _ & Hl & _).
  rewrite (wb_tsv_no_kwargs_tsv ma _ _ _ _ _ _ _ _ l Hdf Hl).
  rewrite (wb_tsv_no_kwargs_tsv ma _ _ _ _ _ _ _ _ l Hdf' Hl).
  pose proof (get_drift_positive drift) as HD.
  set (D := get_drift drift) in *.
  assert (Hc : forall j, j <= i -> cell close j = cell close' j).
  { apply cells_agree_below. intros j Hj. now apply Hsame. }
  assert (Hv : forall j, j <= i -> cell volume j = cell volume' j).
  { apply cells_agree_below. intros j Hj. now apply Hsame. }
  unfold tsv_of.
  rewrite !cell_rolling_sum by (rewrite length_cvd_of; lia).
  unfold rolling_sum_at, window. cbv zeta.
  replace (map (cell (cvd_of close' volume' D))
             (zrange (Z.max 0 (i - l + 1)) (i + 1 - Z.max 0 (i - l + 1))))
    with (map (cell (cvd_of close volume D))
            (zrange (Z.max 0 (i - l + 1)) (i + 1 - Z.max 0 (i - l + 1))));
    [reflexivity|].
  apply map_ext_in. intros j Hj. apply In_zrange in Hj.
  rewrite !cell_cvd_of_eq by (assumption || lia).
  rewrite !cell_signed_series by lia.
  now rewrite !Hc, !Hv by lia.
Qed.

Lemma tsv_is_causal_witness :
  exists df df',
    wb_tsv sma close4 volume4 (PyInt 2) (PyInt 1) PyNone PyNone PyNone
      no_kwargs = Ok df
    /\ wb_tsv sma [num 1; num 2; num 3; num 9; num 4]
         [num 1; num 1; num 1; num 7; num 2] (PyInt 2) (PyInt 1) PyNone PyNone
         PyNone no_kwargs = Ok df'
    /\ cell (tsv_values df) 2 = cell (tsv_values df') 2.
Proof.
  eexists. eexists. split; [reflexivity|]. split; [reflexivity|].
  apply (tsv_is_causal sma close4 volume4
           [num 1; num 2; num 3; num 9; num 4]
           [num 1; num 1; num 1; num 7; num 2]
           (PyInt 2) (PyInt 1) PyNone PyNone PyNone _ _ 2 eq_refl eq_refl
           eq_refl eq_refl).
  - simpl. lia.
  - simpl. lia.
  - intros j Hj.
    assert (Hcases : j = 0 \/ j = 1 \/ j = 2) by lia.
    destruct Hcases as [->|[->| ->]]; split; reflexivity.
Defined.

Lemma negate_if_negative_null : negate_if_negative NaN = NaN.
Proof. reflexivity. Qed.

Lemma vmul_null_l (b : value) : vmul NaN b = NaN.
Proof. reflexivity. Qed.

Lemma vsub_null_l (b : value) : vsub NaN b = NaN.
Proof. now destruct b. Qed.

(** A null in either input at position [j] leaves [tsv] null on the
    [length] positions from [j] on: every window that holds [j] has no
    sum. *)
Theorem null_input_nulls_the_window
    (ma : string -> Series -> Z -> Series) (close volume : Series)
    (length signal mamode drift offset : pyval) (df : DataFrame) (l i j : Z) :
  wb_tsv ma close volume length signal mamode drift offset no_kwargs = Ok df ->
  int_if_positive length 18 = Ok l ->
  List.length close = List.length volume ->
  0 <= j <= i ->
  i < j + l ->
  i < Z.of_nat (List.length close) ->
  cell close j = NaN \/ cell volume j = NaN ->
  cell (tsv_values df) i = NaN.
Proof.
  intros Hdf Hl Hlen Hj Hwin Hi Hnull.
  rewrite (wb_tsv_no_kwargs_tsv ma _ _ _ _ _ _ _ _ l Hdf Hl).
  unfold tsv_of.
  rewrite cell_rolling_sum by (rewrite length_cvd_of; lia).
  apply (rolling_sum_at_hole _ l i j); try lia.
  rewrite cell_cvd_of_eq by (assumption || lia).
  destruct Hnull as [Hc|Hv].
  - now rewrite Hc, vsub_null_l, vmul_null.
  - now rewrite Hv, vmul_null_l.
Qed.

Lemma null_input_nulls_the_window_witness :
  exists df,
    wb_tsv sma [num 1; num 2; num 3; num 5; num 6; num 8]
      [num 1; num 1; NaN; num 1; num 1; num 1] (PyInt 2) (PyInt 1) PyNone
      PyNone PyNone no_kwargs = Ok df
    /\ cell (tsv_values df) 3 = NaN
    /\ cell (tsv_values df) 4 = num 3.
Proof.
  eexists. split; [reflexivity|]. split; [|reflexivity].
  apply (null_input_nulls_the_window sma
           [num 1; num 2; num 3; num 5; num 6; num 8]
           [num 1; num 1; NaN; num 1; num 1; num 1]
           (PyInt 2) (PyInt 1) PyNone PyNone PyNone _ 2 3 2 eq_refl eq_refl
           eq_refl); simpl; try lia.
  now right.
Defined.

(* ================================================================= *)
(** ** The sign of [tsv] (lines 47 to 52) *)











(* ================================================================= *)
(** ** Forward fill and the warm-up of [tsv] (lines 52 and 68) *)

Lemma cell_cons (x : value) (s : Series) (i : Z) :
  0 <= i -> cell (x :: s) (i + 1) = cell s i.
Proof.
  intros Hi. destruct (Z_lt_dec i (Z.of_nat (List.length s))) as [Hin|Hout].
  - rewrite !cell_in by (simpl List.length; lia).
    replace (Z.to_nat (i + 1)) with (S (Z.to_nat i)) by lia. reflexivity.
  - rewrite !cell_out by (simpl List.length; lia). reflexivity.
Qed.

Lemma no_nulls_of_cells (s : Series) :
  (forall i, 0 <= i < Z.of_nat (List.length s) -> isna (cell s i) = false) ->
  no_nulls s = true.
Proof.
  intros H. unfold no_nulls. apply forallb_forall. intros x Hx.
  destruct (In_nth s x NaN Hx) as (n & Hn & <-).
  specialize (H (Z.of_nat n)). rewrite cell_in, Nat2Z.id in H by lia.
  unfold notna. rewrite H by lia. reflexivity.
Qed.

(** Where the nulls of a Series come before all its values, forward
    fill has no value to carry and returns the Series as it is. *)
Lemma pad_from_null_prefix (s : Series) :
  (forall i j, 0 <= i <= j -> j < Z.of_nat (List.length s) ->
               isna (cell s j) = true -> isna (cell s i) = true) ->
  pad_from NaN s = s.
Proof.
  induction s as [|x s IH]; intros Hprefix; [reflexivity|].
  simpl. destruct (isna x) eqn:Hx.
  - destruct x; try discriminate. f_equal. apply IH.
    intros i j Hij Hj Hnull.
    rewrite <- (cell_cons NaN s i) by lia.
    apply (Hprefix (i + 1) (j + 1)); [lia|simpl List.length; lia|].
    rewrite cell_cons by lia. exact Hnull.
  - f_equal. apply pad_from_no_nulls, no_nulls_of_cells.
    intros i Hi. destruct (isna (cell s i)) eqn:Hnull; [|reflexivity].
    assert (H0 : isna (cell (x :: s) 0) = true).
    { apply (Hprefix 0 (i + 1)); [lia|simpl List.length; lia|].
      now rewrite cell_cons by lia. }
    rewrite cell_in in H0 by (simpl List.length; lia).
    simpl in H0. congruence.
Qed.

(** The null prefix of the [tsv] of line 52 on finite inputs. *)
Lemma tsv_of_null_prefix (close volume : Series) (l d i : Z) :
  all_finite close = true -> all_finite volume = true ->
  List.length close = List.length volume ->
  0 < l -> 0 < d ->
  0 <= i < Z.of_nat (List.length close) ->
  (i < l - 1 + d -> cell (tsv_of close volume l d) i = NaN)
  /\ (l - 1 + d <= i -> is_finite (cell (tsv_of close volume l d) i) = true).
Proof.
  intros Hc Hv Hlen Hl Hd Hi. unfold tsv_of.
  rewrite cell_rolling_sum by (rewrite length_cvd_of; assumption).
  split; intros Hwarm.
  - destruct (Z_lt_dec i (l - 1)) as [Hshort|Hlong].
    + apply rolling_sum_at_short. lia.
    + apply (rolling_sum_at_hole _ l i (i - l + 1)); try lia.
      apply (cell_cvd_of close volume d (i - l + 1)); trivial; lia.
  - apply (rolling_sum_at_full (cvd_of close volume d) l i); try lia.
    intros j Hj. apply (cell_cvd_of close volume d j); trivial; lia.
Qed.

(** On finite inputs of one length, a forward fill (pad or ffill) given
    alone returns [tsv] as line 52 computed it: the warm-up nulls come
    first and stay null. *)
Theorem forward_fill_keeps_the_warm_up
    (ma : string -> Series -> Z -> Series) (close volume : Series)
    (length signal : option Z) (mamode drift offset : pyval)
    (m : string) (df : DataFrame) :
  all_finite close = true ->
  all_finite volume = true ->
  List.length close = List.length volume ->
  clean_fill_method m = Ok Pad ->
  wb_tsv ma close volume (int_arg length) (int_arg signal) mamode drift offset
    (mkKwargs None (Some m)) = Ok df ->
  tsv_values df
  = tsv_of close volume (positive_or length 18) (get_drift drift)
  /\ forall i,
       0 <= i < Z.of_nat (List.length close) ->
       i < positive_or length 18 - 1 + get_drift drift ->
       cell (tsv_values df) i = NaN.
Proof.
  intros Hc Hv Hlen Hm Hdf.
  apply wb_tsv_Ok_columns in Hdf.
  destruct Hdf as (l & s & t & sg & r & Hl & _ & _ & Ht & _ & _ & ->).
  rewrite int_if_positive_int_arg in Hl. injection Hl as <-.
  set (L := positive_or length 18) in *.
  set (D := get_drift drift) in *.
  assert (HL : 0 < L) by (apply positive_or_positive; lia).
  assert (HD : 0 < D) by apply get_drift_positive.
  assert (Hcells : forall i,
             0 <= i < Z.of_nat (List.length close) ->
             (i < L - 1 + D -> cell (tsv_of close volume L D) i = NaN)
             /\ (L - 1 + D <= i ->
                 is_finite (cell (tsv_of close volume L D) i) = true)).
  { intros i Hi. now apply tsv_of_null_prefix. }
  assert (Hsame : t = tsv_of close volume L D).
  { unfold fill_series, fill_value_of, fillna_method in Ht. simpl in Ht.
    rewrite Hm in Ht. simpl in Ht. injection Ht as <-.
    apply pad_from_null_prefix.
    intros i j Hij Hj Hnull.
    rewrite length_tsv_of, <- Hlen, Nat.max_id in Hj.
    destruct (Z_lt_dec j (L - 1 + D)) as [Hwarm|Hval].
    - now rewrite (proj1 (Hcells i ltac:(lia))) by lia.
    - pose proof (proj2 (Hcells j ltac:(lia)) ltac:(lia)) as Hfin.
      destruct (cell (tsv_of close volume L D) j); discriminate. }
  unfold tsv_values. simpl. rewrite Hsame. split; [reflexivity|].
  intros i Hi Hwarm. now apply Hcells.
Qed.

Lemma forward_fill_keeps_the_warm_up_witness :
  exists df,
    wb_tsv sma close4 volume4 (int_arg (Some 2)) (int_arg (Some 1)) PyNone
      PyNone PyNone (mkKwargs None (Some "ffill"%string)) = Ok df
    /\ tsv_values df = [NaN; NaN; num 2; num 3].
Proof.
  eexists. split; [reflexivity|].
  rewrite (proj1 (forward_fill_keeps_the_warm_up sma close4 volume4 (Some 2)
                    (Some 1) PyNone PyNone PyNone "ffill"%string _
                    eq_refl eq_refl eq_refl eq_refl eq_refl)).
  reflexivity.
Defined.
